(** * APRS packet decoder (aprs-decoder.py): a shallow embedding and its properties

    The decoder of [src/aprs-decoder.py] is the class [APRSPacket]: its
    constructor stores the raw line and calls [parse], which splits the line
    with a regular expression, classifies the content by its first character
    and, for position reports, calls [_parse_position].

    Python strings are sequences of Unicode code points, [re] is a
    backtracking matcher, [int] and [float] accept every Unicode decimal
    digit, and a Python [float] is an IEEE 754 binary64 number.  The
    embedding keeps all four: text is a list of code points, the three
    patterns of the source are values of a small regular expression type run
    by a backtracking matcher with capture groups, and coordinates are
    primitive binary64 floats. *)

From Stdlib Require Import ZArith NArith List String Ascii Bool Lia.
From Stdlib Require Import Floats Uint63.
Import ListNotations.

(* ================================================================== *)
(** * Text: Python [str] as a list of code points *)
(* ================================================================== *)

Module Unicode.

Definition char := N.
Definition text := list char.

(** [ord "A"] is the code point of an ASCII character. *)
Definition ord (a : ascii) : char := N_of_ascii a.

(** A string literal of the source, as text. *)
Fixpoint str (s : string) : text :=
  match s with
  | EmptyString => []
  | String a s' => ord a :: str s'
  end.

(** The code points of the digits zero of the Unicode decimal digit
    blocks (general category Nd, Unicode 14.0 as shipped with CPython
    3.11).  Every block is ten consecutive code points with the values
    0 to 9 in order. *)
Definition decimal_zeros : list N :=
  [48; 1632; 1776; 1984; 2406; 2534; 2662; 2790; 2918; 3046; 3174; 3302;
   3430; 3558; 3664; 3792; 3872; 4160; 4240; 6112; 6160; 6470; 6608; 6784;
   6800; 6992; 7088; 7232; 7248; 42528; 43216; 43264; 43472; 43504; 43600;
   44016; 65296; 66720; 68912; 69734; 69872; 69942; 70096; 70384; 70736;
   70864; 71248; 71360; 71472; 71904; 72016; 72784; 73040; 73120; 92768;
   92864; 93008; 120782; 120792; 120802; 120812; 120822; 123200; 123632;
   125264; 130032]%N.

(** [Py_UNICODE_TODECIMAL]: the decimal value of a code point, if it is a
    decimal digit.  This is what [\d], [int] and [float] all consult. *)
Definition to_decimal (c : char) : option Z :=
  match find (fun z => (z <=? c)%N && (c <? z + 10)%N) decimal_zeros with
  | Some z => Some (Z.of_N (c - z))
  | None => None
  end.

Definition isdecimal (c : char) : bool :=
  match to_decimal c with Some _ => true | None => false end.

(** [Py_UNICODE_ISSPACE]: what [\s] matches and [str.strip()] removes. *)
Definition whitespace : list N :=
  [9; 10; 11; 12; 13; 28; 29; 30; 31; 32; 133; 160; 5760; 8192; 8193; 8194;
   8195; 8196; 8197; 8198; 8199; 8200; 8201; 8202; 8232; 8233; 8239; 8287;
   12288]%N.

Definition isspace (c : char) : bool := existsb (N.eqb c) whitespace.

Definition is_chr (a : ascii) (c : char) : bool := N.eqb c (ord a).

Definition between (lo hi : ascii) (c : char) : bool :=
  (ord lo <=? c)%N && (c <=? ord hi)%N.

(** ** The string methods the decoder uses *)

Fixpoint lstrip (s : text) : text :=
  match s with
  | c :: t => if isspace c then lstrip t else s
  | [] => []
  end.

Definition rstrip (s : text) : text := rev (lstrip (rev s)).

(** [s.strip()] *)
Definition strip (s : text) : text := rstrip (lstrip s).

(** [s.startswith(a)] for a one-character prefix. *)
Definition startswith (a : ascii) (s : text) : bool :=
  match s with
  | c :: _ => is_chr a c
  | [] => false
  end.

(** [s[1:]] *)
Definition drop1 (s : text) : text := tl s.

(** [s.split(sep)] for a one-character separator: every occurrence cuts,
    and empty pieces are kept. *)
Fixpoint split (sep : ascii) (s : text) : list text :=
  match s with
  | [] => [[]]
  | c :: t =>
      if is_chr sep c then [] :: split sep t
      else match split sep t with
           | piece :: rest => (c :: piece) :: rest
           | [] => [[c]]
           end
  end.

(** The string of one line feed. *)
Definition LF : text := [ord "010"].

(** [sep.join(pieces)] *)
Fixpoint join (sep : text) (pieces : list text) : text :=
  match pieces with
  | [] => []
  | [piece] => piece
  | piece :: rest => piece ++ sep ++ join sep rest
  end.

(** [s.replace(a, b)] for one-character [a] and [b]. *)
Definition replace (a b : ascii) (s : text) : text :=
  map (fun c => if is_chr a c then ord b else c) s.

(** [a in s] for a one-character [a]. *)
Definition contains (a : ascii) (s : text) : bool := existsb (is_chr a) s.

End Unicode.
Import Unicode.

(* ================================================================== *)
(** * Regular expressions: the fragment of [re] the decoder uses *)
(* ================================================================== *)

Module Re.

(** One constructor per construct that occurs in the three patterns:
    a character set (a literal, a bracket class, [\d], [\s] or [.]),
    concatenation, the greedy star and a numbered capturing group.
    [x+] is [x] followed by [x*], and [x{n}] is [x] written [n] times. *)
Inductive regex : Type :=
| Set_ (p : char -> bool)
| Cat (a b : regex)
| Star (a : regex)
| Group (n : nat) (a : regex).

Definition Plus (a : regex) : regex := Cat a (Star a).
Definition Lit (a : ascii) : regex := Set_ (is_chr a).

(** Capture groups, most recent assignment first. *)
Definition caps := list (nat * text).

(** A continuation receives the unread input and the groups so far. *)
Definition cont := text -> caps -> option caps.

(** Greedy repetition of [body]: try one more iteration first, and only
    when everything after it fails, leave the loop.  As in [sre], an
    iteration that consumed nothing is not repeated.  [n] bounds the number
    of iterations; the matcher starts it at the length of the input, which
    no sequence of consuming iterations can exceed (lemma
    [star_loop_bound]). *)
Fixpoint star_loop (body : cont -> cont) (k : cont) (n : nat)
         (s : text) (g : caps) {struct n} : option caps :=
  match n with
  | O => k s g
  | S n' =>
      match body (fun s' g' =>
                    if (List.length s' <? List.length s)%nat
                    then star_loop body k n' s' g'
                    else None) s g with
      | Some r => Some r
      | None => k s g
      end
  end.

(** The backtracking matcher: [m r k s g] matches [r] at the head of [s]
    and passes what is left to [k]; [None] makes the caller try its next
    alternative.  Groups are threaded functionally, so a failed branch
    leaves no trace in them. *)
Fixpoint m (r : regex) (k : cont) (s : text) (g : caps) {struct r}
  : option caps :=
  match r with
  | Set_ p =>
      match s with
      | c :: t => if p c then k t g else None
      | [] => None
      end
  | Cat a b => m a (m b k) s g
  | Star a => star_loop (m a) k (List.length s) s g
  | Group n a =>
      m a (fun s' g' => k s' ((n, firstn (List.length s - List.length s') s) :: g')) s g
  end.

(** [re.search(pattern, s)]: the first start position, left to right, at
    which the pattern matches; the match object is represented by its
    groups. *)
Fixpoint search (r : regex) (s : text) : option caps :=
  match m r (fun _ g => Some g) s [] with
  | Some g => Some g
  | None =>
      match s with
      | [] => None
      | _ :: t => search r t
      end
  end.

(** [match.group(n)].  Every group of the three patterns below takes part
    in every match (lemmas [base_match] and [position_match]), so the
    default is never returned. *)
Fixpoint group (g : caps) (n : nat) : text :=
  match g with
  | [] => []
  | (i, w) :: g' => if Nat.eqb i n then w else group g' n
  end.

(** ** What a successful match looks like

    [run r w g g']: the word [w] is matched by [r], and the groups [g]
    become [g'] on the way. *)
Inductive iter (R : text -> caps -> caps -> Prop) : text -> caps -> caps -> Prop :=
| iter_stop g : iter R [] g g
| iter_more w1 w2 g g1 g2 :
    R w1 g g1 -> iter R w2 g1 g2 -> iter R (w1 ++ w2) g g2.

Fixpoint run (r : regex) (w : text) (g g' : caps) {struct r} : Prop :=
  match r with
  | Set_ p => exists c, w = [c] /\ p c = true /\ g' = g
  | Cat a b => exists w1 w2 g1, w = w1 ++ w2 /\ run a w1 g g1 /\ run b w2 g1 g'
  | Star a => iter (run a) w g g'
  | Group n a => exists g1, run a w g g1 /\ g' = (n, w) :: g1
  end.

(** ** Soundness, as a property of a matcher

    A continuation-passing matcher is sound for a relation [R] when every
    answer it gives comes from a word of [R] at the head of the input
    followed by an answer of the continuation. *)
Definition sound_for (body : cont -> cont) (R : text -> caps -> caps -> Prop) : Prop :=
  forall k s g res,
    body k s g = Some res ->
    exists w s' g', s = w ++ s' /\ R w g g' /\ k s' g' = Some res.

End Re.
Import Re.

(* ================================================================== *)
(** * Python values: exceptions, [int], [float] *)
(* ================================================================== *)

Module Exc.

Inductive exn : Type := ValueError | TypeError.

(** What evaluating an expression gives: a value or a raised exception. *)
Inductive result (A : Type) : Type :=
| Ok (a : A)
| Raise (e : exn).
Arguments Ok {A} a.
Arguments Raise {A} e.

End Exc.
Import Exc.

(** The builtins are kept under their Python names and always written
    qualified ([Py.int], [Py.float]), apart from the primitive types
    [int] and [float] of the library. *)
Module Py.

(** Digits read most significant first, each through its Unicode decimal
    value; [None] as soon as a character is not a decimal digit. *)
Fixpoint digits (acc : Z) (s : text) : option Z :=
  match s with
  | [] => Some acc
  | c :: t =>
      match to_decimal c with
      | Some d => digits (10 * acc + d) t
      | None => None
      end
  end.

(** [int(s)] on a text of decimal digits, the only form the groups
    [(\d{2})] and [(\d{3})] can take.  The other spellings Python's [int]
    accepts (a sign, surrounding blanks, underscores) cannot reach it from
    the decoder and are not modelled: they count as [ValueError] here. *)
Definition int (s : text) : result Z :=
  match s with
  | [] => Raise ValueError
  | _ => match digits 0 s with
         | Some z => Ok z
         | None => Raise ValueError
         end
  end.

(** [float(i)] for a Python int that fits 63 bits; the decoder converts
    only the constants 60 and 100 and numbers below 10000, all exactly
    representable. *)
Definition float_of_int (z : Z) : float := PrimFloat.of_uint63 (Uint63.of_Z z).

(** [float(s)] on a text of the form [MM.hh], the only form the groups
    [(\d{2}\.\d{2})] can take; every other text counts as [ValueError]
    here.  Python's [float] rounds the decimal number correctly to
    binary64.  The decimal number [MM.hh] is [n/100] for [n] the four
    digits read as one integer; [n] and [100] are binary64 numbers, and
    binary64 division rounds the exact quotient the same way, so the
    quotient of the two floats is the float Python returns. *)
Definition float (s : text) : result PrimFloat.float :=
  match s with
  | [m1; m0; p; h1; h0] =>
      if is_chr "." p then
        match digits 0 [m1; m0; h1; h0] with
        | Some n => Ok (PrimFloat.div (float_of_int n) (float_of_int 100))
        | None => Raise ValueError
        end
      else Raise ValueError
  | _ => Raise ValueError
  end.

(** [s == t] on strings. *)
Fixpoint text_eqb (s t : text) : bool :=
  match s, t with
  | [], [] => true
  | c :: s', d :: t' => N.eqb c d && text_eqb s' t'
  | _, _ => false
  end.

End Py.

(* ================================================================== *)
(** * class APRSPacket *)
(* ================================================================== *)

Module APRSPacket.

(** The attributes [__init__] creates.  [timestamp] is the reading of the
    clock at construction time, an input of the model. *)
Record t : Type := mk {
  raw : text;
  source : text;
  destination : text;
  path : list text;
  message_type : text;
  latitude : option float;
  longitude : option float;
  comment : text;
  timestamp : Z
}.

(** ** Methods run on [self]: a state monad with exceptions

    An exception leaves [self] as the statements before it made it. *)
Definition M (A : Type) : Type := t -> t * result A.

Definition ret {A} (a : A) : M A := fun self => (self, Ok a).

Definition bind {A B} (c : M A) (f : A -> M B) : M B :=
  fun self =>
    match c self with
    | (self', Ok a) => f a self'
    | (self', Raise e) => (self', Raise e)
    end.

Notation "x <- c ;; k" := (bind c (fun x => k))
  (at level 61, c at next level, right associativity).
Notation "c ;; k" := (bind c (fun _ => k))
  (at level 61, right associativity).

Definition get : M t := fun self => (self, Ok self).

Definition lift {A} (r : result A) : M A := fun self => (self, r).

(** [try: body except Exception as e: print(...)] *)
Definition try_except (body : M unit) : M unit :=
  fun self => (fst (body self), Ok tt).

(** Attribute assignments [self.x = v]. *)
Definition set_source (v : text) : M unit := fun s =>
  (mk (raw s) v (destination s) (path s) (message_type s)
      (latitude s) (longitude s) (comment s) (timestamp s), Ok tt).
Definition set_destination (v : text) : M unit := fun s =>
  (mk (raw s) (source s) v (path s) (message_type s)
      (latitude s) (longitude s) (comment s) (timestamp s), Ok tt).
Definition set_path (v : list text) : M unit := fun s =>
  (mk (raw s) (source s) (destination s) v (message_type s)
      (latitude s) (longitude s) (comment s) (timestamp s), Ok tt).
Definition set_message_type (v : text) : M unit := fun s =>
  (mk (raw s) (source s) (destination s) (path s) v
      (latitude s) (longitude s) (comment s) (timestamp s), Ok tt).
Definition set_latitude (v : option float) : M unit := fun s =>
  (mk (raw s) (source s) (destination s) (path s) (message_type s)
      v (longitude s) (comment s) (timestamp s), Ok tt).
Definition set_longitude (v : option float) : M unit := fun s =>
  (mk (raw s) (source s) (destination s) (path s) (message_type s)
      (latitude s) v (comment s) (timestamp s), Ok tt).
Definition set_comment (v : text) : M unit := fun s =>
  (mk (raw s) (source s) (destination s) (path s) (message_type s)
      (latitude s) (longitude s) v (timestamp s), Ok tt).

(** Unary minus on an attribute that may still be [None]. *)
Definition neg (v : option float) : M (option float) :=
  match v with
  | Some x => ret (Some (PrimFloat.opp x))
  | None => lift (Raise TypeError)
  end.

(** ** The three patterns *)

Infix "+>" := Cat (at level 60, right associativity).

(** The set "[A-Z0-9-]" *)
Definition callsign_set (c : char) : bool :=
  between "A" "Z" c || between "0" "9" c || is_chr "-" c.

(** The set "[A-Z0-9-*]": after the range 0-9, the hyphen and the
    asterisk are literals. *)
Definition path_set (c : char) : bool :=
  between "A" "Z" c || between "0" "9" c || is_chr "-" c || is_chr "*" c.

(** [.] without DOTALL: anything but a line feed. *)
Definition any (c : char) : bool := negb (is_chr "010" c).

Definition one_of (a b : ascii) (c : char) : bool := is_chr a c || is_chr b c.

(** [\d] *)
Definition digit : regex := Set_ isdecimal.

(** The pattern literal of [parse], as the source spells it. *)
Definition base_pattern : string :=
  "([A-Z0-9-]+)\s*>\s*([A-Z0-9-]+)((?:,[A-Z0-9-*]+)*):(.*)".

(** [base_pattern] compiled: SOURCE, blanks, [>], blanks, DESTINATION, the
    comma-led path elements, [:], and the content up to the end of the
    line. *)
Definition base_re : regex :=
  Group 1 (Plus (Set_ callsign_set)) +>
  Star (Set_ isspace) +> Lit ">" +> Star (Set_ isspace) +>
  Group 2 (Plus (Set_ callsign_set)) +>
  Group 3 (Star (Lit "," +> Plus (Set_ path_set))) +>
  Lit ":" +>
  Group 4 (Star (Set_ any)).

(** The two pattern literals of [_parse_position], as the source spells
    them. *)
Definition position_pattern : string :=
  "[!=](\d{2})(\d{2}\.\d{2})([NS])/(\d{3})(\d{2}\.\d{2})([EW])".
Definition after_pattern : string :=
  "[NS]/\d{3}\d{2}\.\d{2}[EW](.*)".

(** [position_pattern] compiled. *)
Definition position_re : regex :=
  Set_ (one_of "!" "=") +>
  Group 1 (digit +> digit) +>
  Group 2 (digit +> digit +> Lit "." +> digit +> digit) +>
  Group 3 (Set_ (one_of "N" "S")) +>
  Lit "/" +>
  Group 4 (digit +> digit +> digit) +>
  Group 5 (digit +> digit +> Lit "." +> digit +> digit) +>
  Group 6 (Set_ (one_of "E" "W")).

(** [after_pattern] compiled. *)
Definition after_re : regex :=
  Set_ (one_of "N" "S") +> Lit "/" +>
  (digit +> digit +> digit) +> (digit +> digit) +> Lit "." +> (digit +> digit) +>
  Set_ (one_of "E" "W") +>
  Group 1 (Star (Set_ any)).

(** ** [_parse_position] *)
Definition _parse_position (content : text) : M unit :=
  try_except (
    match search position_re content with
    | Some pos_match =>
        lat_deg <- lift (Py.int (group pos_match 1)) ;;
        lat_min <- lift (Py.float (group pos_match 2)) ;;
        let lat_dir := group pos_match 3 in
        lon_deg <- lift (Py.int (group pos_match 4)) ;;
        lon_min <- lift (Py.float (group pos_match 5)) ;;
        let lon_dir := group pos_match 6 in
        set_latitude
          (Some (PrimFloat.add (Py.float_of_int lat_deg)
                               (PrimFloat.div lat_min (Py.float_of_int 60)))) ;;
        (if Py.text_eqb lat_dir (str "S")
         then (self <- get ;; v <- neg (latitude self) ;; set_latitude v)
         else ret tt) ;;
        set_longitude
          (Some (PrimFloat.add (Py.float_of_int lon_deg)
                               (PrimFloat.div lon_min (Py.float_of_int 60)))) ;;
        (if Py.text_eqb lon_dir (str "W")
         then (self <- get ;; v <- neg (longitude self) ;; set_longitude v)
         else ret tt) ;;
        match search after_re content with
        | Some after_pos => set_comment (strip (group after_pos 1))
        | None => ret tt
        end
    | None => ret tt
    end).

(** ** [parse] *)
Definition parse : M unit :=
  try_except (
    self <- get ;;
    match search base_re (raw self) with
    | Some parts =>
        set_source (group parts 1) ;;
        set_destination (group parts 2) ;;
        (match group parts 3 with
         | [] => ret tt
         | _ :: _ => set_path (split "," (drop1 (group parts 3)))
         end) ;;
        let content := strip (group parts 4) in
        if startswith "!" content || startswith "=" content then
          set_message_type (str "Position") ;;
          _parse_position content
        else if startswith ">" content then
          set_message_type (str "Status") ;;
          set_comment (strip (drop1 content))
        else if startswith ":" content then
          set_message_type (str "Message") ;;
          set_comment (strip (drop1 content))
        else if startswith "T" content then
          set_message_type (str "Telemetry") ;;
          set_comment (strip content)
        else
          set_message_type (str "Other") ;;
          set_comment (strip content)
    | None => ret tt
    end).

(** ** [__init__] *)
Definition __init__ (raw_packet : text) (now : Z) : t * result unit :=
  parse (mk raw_packet [] [] [] [] None None [] now).

(** The expression [APRSPacket(raw_packet)]: the new object, unless
    [__init__] lets an exception through. *)
Definition new (raw_packet : text) (now : Z) : result t :=
  match __init__ raw_packet now with
  | (self, Ok _) => Ok self
  | (_, Raise e) => Raise e
  end.

(** ** [__str__]

    The two formatting builtins are parameters: [strftime] stands for
    [timestamp.strftime('%Y-%m-%d %H:%M:%S')] and [format_6f] for the
    format specification [.6f] of a float. *)
Section Rendering.

Variable strftime : Z -> text.
Variable format_6f : float -> text.

(** The list [result], as the appends leave it. *)
Definition str_lines (self : t) : list text :=
  [str "Timestamp: " ++ strftime (timestamp self);
   str "Source: " ++ source self;
   str "Destination: " ++ destination self] ++
  (match path self with
   | [] => []
   | _ :: _ => [str "Path: " ++ join (str ",") (path self)]
   end) ++
  [str "Type: " ++ message_type self] ++
  (match latitude self, longitude self with
   | Some lat, Some lon =>
       [str "Position: " ++ format_6f lat ++ str ", " ++ format_6f lon]
   | _, _ => []
   end) ++
  (match comment self with
   | [] => []
   | _ :: _ => [str "Comment: " ++ comment self]
   end) ++
  [str "Raw: " ++ raw self].

Definition __str__ (self : t) : text := join LF (str_lines self).

End Rendering.

(** ** Vocabulary of the statements *)

(** The object [__init__] hands to [parse]. *)
Definition blank (raw_packet : text) (now : Z) : t :=
  mk raw_packet [] [] [] [] None None [] now.

(** [self] once the addresses and the path are stored. *)
Definition addressed (self : t) (parts : caps) : t :=
  mk (raw self) (group parts 1) (group parts 2)
     (match group parts 3 with
      | [] => path self
      | _ :: _ => split "," (drop1 (group parts 3))
      end)
     (message_type self) (latitude self) (longitude self) (comment self)
     (timestamp self).

(** [self] once a type and a comment are stored. *)
Definition classified (self : t) (kind com : text) : t :=
  mk (raw self) (source self) (destination self) (path self) kind
     (latitude self) (longitude self) com (timestamp self).

(** Two records that differ at most in [raw]. *)
Definition same_decoding (p q : t) : Prop :=
  source p = source q /\ destination p = destination q /\
  path p = path q /\ message_type p = message_type q /\
  latitude p = latitude q /\ longitude p = longitude q /\
  comment p = comment q.

(** The text of group 3: nothing, or comma-led elements. *)
Inductive path_text : text -> Prop :=
| path_none : path_text []
| path_more e rest :
    e <> [] -> Forall (fun c => path_set c = true) e -> path_text rest ->
    path_text (ord "," :: e ++ rest).

(** A path element as the spec wants it: a non-empty run of the path
    set. *)
Definition path_element (e : text) : Prop :=
  e <> [] /\ Forall (fun c => path_set c = true) e.

End APRSPacket.

(* ================================================================== *)
(** * Decimal degrees and their re-encoding *)
(* ================================================================== *)

Module Degrees.

(** What [_parse_position] stores for a degrees field worth [deg] and a
    minutes field [MM.hh] worth [n] hundredths of a minute:
    [deg + float("MM.hh")/60], negated in the southern or western
    hemisphere. *)
Definition decimal_degrees (deg n : Z) (negative : bool) : float :=
  let v := PrimFloat.add (Py.float_of_int deg)
             (PrimFloat.div
                (PrimFloat.div (Py.float_of_int n) (Py.float_of_int 100))
                (Py.float_of_int 60)) in
  if negative then PrimFloat.opp v else v.

(** The number a degrees field spells, and the number of hundredths of a
    minute a minutes field [MM.hh] spells (0 for a text that is not of
    that form). *)
Definition degrees_field (s : text) : Z :=
  match Py.digits 0 s with Some z => z | None => 0%Z end.

Definition hundredths_field (s : text) : Z :=
  match s with
  | [m1; m0; _; h1; h0] =>
      match Py.digits 0 [m1; m0; h1; h0] with Some n => n | None => 0%Z end
  | _ => 0%Z
  end.

(** The sign law as the floats obey it.  [x] is the stored coordinate,
    [letter] its hemisphere letter, [deg] and [n] its fields: [x] is below
    zero exactly for the negative letter and above zero exactly for the
    positive letter, unless both fields are zero; then [x] is the zero of
    binary64 that carries the hemisphere's sign, which compares neither
    below nor above zero. *)
Definition follows_hemisphere (letter negative_letter positive_letter : text)
           (deg n : Z) (x : float) : Prop :=
  (PrimFloat.ltb x 0 = true <->
   letter = negative_letter /\ (deg, n) <> (0, 0)%Z) /\
  (PrimFloat.ltb 0 x = true <->
   letter = positive_letter /\ (deg, n) <> (0, 0)%Z) /\
  ((deg, n) = (0, 0)%Z ->
   x = if Py.text_eqb letter negative_letter then (-0)%float else 0%float).

(** ** Re-encoding

    The source only decodes.  The round trip of the spec needs the way
    back, which is modelled here from the spec's words: whole degrees plus
    fractional minutes, read to two decimal places. *)

(** Modelled from the spec: the whole part of a float [0 <= x < 2^53],
    read off its mantissa and exponent: [frshiftexp x = (f, e)] with
    [x = f * 2^(e - 2101)] and [normfr_mantissa f = f * 2^53]. *)
Definition floor_int (x : float) : int :=
  let (f, e) := PrimFloat.frshiftexp x in
  let mant := PrimFloat.normfr_mantissa f in
  if (e <=? 2101)%uint63 then 0%uint63
  else if (2101 + 53 <? e)%uint63 then 0%uint63
  else (mant >> (2101 + 53 - e))%uint63.

(** Modelled from the spec: a float [0 <= y < 2^52] to two decimal
    places, as a number of hundredths: the integer nearest to [100 * y],
    ties to even, computed on the exact binary value of [y].  These are
    the digits a two-decimal rendering of [y] shows. *)
Definition hundredths_int (y : float) : int :=
  let (f, e) := PrimFloat.frshiftexp y in
  let v := (100 * PrimFloat.normfr_mantissa f)%uint63 in
  let k := (2101 + 53 - e)%uint63 in
  if (60 <? k)%uint63 then 0%uint63
  else
    let q := (v >> k)%uint63 in
    let r := (v - (q << k))%uint63 in
    let half := (1 << (k - 1))%uint63 in
    if (half <? r)%uint63 then (q + 1)%uint63
    else if (r =? half)%uint63 && (q land 1 =? 1)%uint63 then (q + 1)%uint63
    else q.

(** Modelled from the spec: whole degrees and hundredths of a minute of
    [|x|], as machine integers. *)
Definition reencode_int (x : float) : int * int :=
  let a := PrimFloat.abs x in
  let whole := floor_int a in
  (whole,
   hundredths_int
     (PrimFloat.mul (PrimFloat.sub a (PrimFloat.of_uint63 whole)) 60%float)).

(** Modelled from the spec: the re-encoding of decimal degrees into whole
    degrees plus fractional minutes, which the source does not contain.
    The whole degrees are the integer part of [|x|], the minutes are
    [(|x| - degrees) * 60], and the minutes are read to two decimal
    places, that is as a number of hundredths. *)
Definition reencode (x : float) : Z * Z :=
  (Uint63.to_Z (fst (reencode_int x)), Uint63.to_Z (snd (reencode_int x))).

(** ** An exhaustive sweep over the fields the pattern admits

    A degrees field is below 1000 and a minutes field below 10000
    hundredths, so every property of the stored floats can be checked on
    all of them. *)
Fixpoint all_upto (fuel : nat) (i : int) (p : int -> bool) : bool :=
  match fuel with
  | O => true
  | S fuel' => p i && all_upto fuel' (i + 1)%uint63 p
  end.

Definition pair_eqb (a b : int * int) : bool :=
  (fst a =? fst b)%uint63 && (snd a =? snd b)%uint63.

Definition within (lo hi x : float) : bool :=
  PrimFloat.leb lo x && PrimFloat.leb x hi.

(** The facts checked at one point: [v] is the northern or eastern value,
    [w] its southern or western twin. *)
Definition check_point (deg n : int) (minutes : float) : bool :=
  let v := PrimFloat.add (PrimFloat.of_uint63 deg) (PrimFloat.div minutes 60) in
  let w := PrimFloat.opp v in
  let nonzero := negb ((deg =? 0)%uint63 && (n =? 0)%uint63) in
  (* signs *)
  negb (PrimFloat.ltb v 0) && negb (PrimFloat.ltb 0 w) &&
  Bool.eqb (PrimFloat.ltb 0 v) nonzero && Bool.eqb (PrimFloat.ltb w 0) nonzero &&
  (* bounds *)
  within (-1001) 1001 v && within (-1001) 1001 w &&
  (if (deg <? 100)%uint63 then within (-101) 101 v && within (-101) 101 w else true) &&
  (if (n <? 6000)%uint63 then
     (if (deg <? 180)%uint63 then within (-180) 180 v && within (-180) 180 w else true) &&
     (if (deg <? 90)%uint63 then within (-90) 90 v && within (-90) 90 w else true) &&
     (* round trip *)
     pair_eqb (reencode_int v) (deg, n) && pair_eqb (reencode_int w) (deg, n)
   else true).

(** One row of the sweep: a minutes field against every degrees field. *)
Definition check_row (n : int) : bool :=
  let minutes := PrimFloat.div (PrimFloat.of_uint63 n) 100 in
  all_upto 1000 0%uint63 (fun deg => check_point deg n minutes).

End Degrees.

(* ================================================================== *)
(** * main: the text the loop handles *)
(* ================================================================== *)

Module Main.

Import APRSPacket.

(** The body of [for line in lines] up to the constructor: each line is
    stripped, and a packet is constructed for the ones that are not empty
    then. *)
Definition lines_of (lines : list text) : list text :=
  filter (fun line => match line with [] => false | _ :: _ => true end)
         (map strip lines).

(** One turn of the loop on the text just read: [buffer += data], and
    when the buffer holds a line feed, [split], [pop] the unfinished last
    line back into the buffer, and go through the others; the result is
    the new buffer and the lines for which a packet is constructed. *)
Definition receive (buffer data : text) : text * list text :=
  let buffer := buffer ++ data in
  if contains "010" buffer then
    let lines := split "010" buffer in
    (last lines [], lines_of (removelast lines))
  else (buffer, []).

(** The loop over the successive reads: the last buffer and, in order,
    all the lines a packet was constructed for. *)
Fixpoint receive_all (buffer : text) (reads : list text) : text * list text :=
  match reads with
  | [] => (buffer, [])
  | data :: reads' =>
      let (buffer', lines) := receive buffer data in
      let (buffer'', lines') := receive_all buffer' reads' in
      (buffer'', lines ++ lines')
  end.

(** [if x] on an attribute that is [None] or a float: a float is true
    unless it equals zero. *)
Definition truthy (v : option float) : bool :=
  match v with
  | Some x => negb (PrimFloat.eqb x 0)
  | None => false
  end.

(** The log entries.  [strftime] and [format_6f] are as in [__str__];
    [float_str] stands for [str] of a float. *)
Section Log.

Variable strftime : Z -> text.
Variable format_6f : float -> text.
Variable float_str : float -> text.

(** [str(x) if x else ""] *)
Definition str_if (v : option float) : text :=
  match v with
  | Some x => if truthy v then float_str x else []
  | None => []
  end.

(** The list [csv_line]. *)
Definition csv_line (packet : t) : list text :=
  [strftime (timestamp packet);
   source packet;
   destination packet;
   join (str "|") (path packet);
   message_type packet;
   str_if (latitude packet);
   str_if (longitude packet);
   replace "," ";" (comment packet);
   replace "," ";" (raw packet)].

(** What is written to the log in the csv format. *)
Definition csv_entry (packet : t) : text :=
  join (str ",") (csv_line packet) ++ LF.

(** What is written to the log in the human format. *)
Definition human_entry (packet : t) : text :=
  __str__ strftime format_6f packet ++ LF ++ LF.

End Log.

(** ** Vocabulary of the statements *)

(** The path as it stands in a frame: each element behind a comma. *)
Definition path_field (pth : list text) : text :=
  List.concat (map (fun e => ord "," :: e) pth).

(** A frame spelled out: source, blanks, [>], blanks, destination, the
    path, [:], content. *)
Definition frame (src blanks1 blanks2 dst : text) (pth : list text)
           (content : text) : text :=
  src ++ blanks1 ++ str ">" ++ blanks2 ++ dst ++
  path_field pth ++ str ":" ++ content.

(** A text that does not start with a character of the set [p]. *)
Definition stops (p : char -> bool) (rest : text) : Prop :=
  forall c t, rest = c :: t -> p c = false.

(** A non-empty run of the callsign set. *)
Definition callsign (s : text) : Prop :=
  s <> [] /\ Forall (fun c => callsign_set c = true) s.

(** A text without a line feed. *)
Definition one_line (s : text) : Prop := Forall (fun c => any c = true) s.

(** A text that [strip] leaves as it is: it neither starts nor ends with
    a blank. *)
Definition trimmed (s : text) : Prop :=
  (forall c t, s = c :: t -> isspace c = false) /\
  (forall c t, s = t ++ [c] -> isspace c = false).

End Main.
Import Degrees.
Import APRSPacket.
Import Main.

(* ================================================================== *)
(** * Proof steps used throughout *)
(* ================================================================== *)

(** Open every existential and conjunction among the hypotheses. *)
Ltac break :=
  repeat match goal with
         | H : exists _, _ |- _ => destruct H
         | H : _ /\ _ |- _ => destruct H
         end.

(** Open every conjunction of booleans among the hypotheses. *)
Ltac split_andb :=
  repeat match goal with
         | H : _ && _ = true |- _ => apply andb_true_iff in H; destruct H
         end.

(** Run the statements of a method whose results are known. *)
Ltac run_monad :=
  unfold bind, lift, get, ret, neg, set_latitude, set_longitude, set_comment,
    set_source, set_destination, set_path, set_message_type;
  cbn [fst snd latitude longitude raw source destination path message_type
       comment timestamp].

(* ================================================================== *)
(** * Properties of the text operations *)
(* ================================================================== *)

Lemma to_decimal_range (c : char) (v : Z) :
  to_decimal c = Some v -> (0 <= v <= 9)%Z.
Proof.
  unfold to_decimal.
  destruct (find _ decimal_zeros) as [z|] eqn:F; [|discriminate].
  intros E; injection E as <-.
  apply find_some in F. destruct F as [_ F].
  apply andb_true_iff in F. destruct F as [F1 F2].
  apply N.leb_le in F1. apply N.ltb_lt in F2. lia.
Qed.

Lemma isdecimal_value (c : char) :
  isdecimal c = true -> exists v, to_decimal c = Some v /\ (0 <= v <= 9)%Z.
Proof.
  unfold isdecimal. destruct (to_decimal c) as [v|] eqn:E; [|discriminate].
  intros _. exists v. split; [reflexivity|]. now apply (to_decimal_range c).
Qed.

Lemma text_eqb_eq (s t : text) : Py.text_eqb s t = true <-> s = t.
Proof.
  revert t. induction s as [|c s IH]; intros [|e t]; simpl; split;
    try discriminate; try reflexivity.
  - intros H. apply andb_true_iff in H. destruct H as [H1 H2].
    apply N.eqb_eq in H1. apply IH in H2. now subst.
  - intros H. injection H as -> ->. apply andb_true_iff. split.
    + apply N.eqb_refl.
    + now apply IH.
Qed.

(* ================================================================== *)
(** * The matcher finds only matches *)
(* ================================================================== *)

Section StarLoop.

Variable body : cont -> cont.
Variable R : text -> caps -> caps -> Prop.
Hypothesis Hbody : sound_for body R.

(** The loop is sound for the iteration of what its body is sound for. *)
Lemma star_loop_sound (k : cont) (n : nat) :
  forall s g res,
    star_loop body k n s g = Some res ->
    exists w s' g', s = w ++ s' /\ iter R w g g' /\ k s' g' = Some res.
Proof.
  induction n as [|n IH]; intros s g res H; simpl in H.
  - exists [], s, g. repeat split; [constructor | assumption].
  - destruct (body _ s g) as [r|] eqn:B.
    + injection H as ->.
      apply Hbody in B. destruct B as (w1 & s1 & g1 & -> & R1 & K).
      destruct (List.length s1 <? List.length (w1 ++ s1))%nat; [|discriminate].
      apply IH in K. destruct K as (w2 & s2 & g2 & -> & R2 & K).
      exists (w1 ++ w2), s2, g2. rewrite <- app_assoc.
      repeat split; [|assumption]. econstructor; eassumption.
    + exists [], s, g. repeat split; [constructor | assumption].
Qed.

End StarLoop.

(** Every answer of the matcher is a run of the pattern. *)
Lemma m_sound (r : regex) : sound_for (m r) (run r).
Proof.
  induction r as [p | a IHa b IHb | a IHa | n a IHa]; intros k s g res H; simpl in H.
  - destruct s as [|c t]; [discriminate|].
    destruct (p c) eqn:P; [|discriminate].
    exists [c], t, g. simpl. repeat split; [|assumption].
    exists c. auto.
  - apply IHa in H. destruct H as (w1 & s1 & g1 & -> & R1 & H).
    apply IHb in H. destruct H as (w2 & s2 & g2 & -> & R2 & H).
    exists (w1 ++ w2), s2, g2. rewrite <- app_assoc. repeat split; [|assumption].
    simpl. exists w1, w2, g1. auto.
  - apply (star_loop_sound _ _ IHa) in H. exact H.
  - apply IHa in H. destruct H as (w & s' & g' & -> & R1 & H).
    rewrite length_app, Nat.add_sub, firstn_app, Nat.sub_diag, firstn_all in H.
    simpl in H. rewrite app_nil_r in H.
    exists w, s', ((n, w) :: g'). repeat split; [|assumption].
    simpl. exists g'. auto.
Qed.

(** Every answer of [search] is a run of the pattern somewhere in the
    text, from no groups. *)
Lemma search_sound (r : regex) (s : text) (g : caps) :
  search r s = Some g ->
  exists before w rest, s = before ++ w ++ rest /\ run r w [] g.
Proof.
  induction s as [|c t IH]; simpl.
  - destruct (m r _ [] []) as [g0|] eqn:M; [|discriminate].
    intros E; injection E as ->.
    apply m_sound in M. destruct M as (w & s' & g' & E & R & K).
    injection K as ->. exists [], w, s'. auto.
  - destruct (m r _ (c :: t) []) as [g0|] eqn:M.
    + intros E; injection E as ->.
      apply m_sound in M. destruct M as (w & s' & g' & E & R & K).
      injection K as ->. exists [], w, s'. auto.
    + intros H. apply IH in H. destruct H as (before & w & rest & -> & R).
      exists (c :: before), w, rest. auto.
Qed.

(* ================================================================== *)
(** * The bound of the loop is never met *)
(* ================================================================== *)

(** The matcher asks its continuation about no text longer than its
    input. *)
Lemma m_ext (r : regex) :
  forall (k1 k2 : cont) (s : text) (g : caps),
    (forall s' g', (List.length s' <= List.length s)%nat -> k1 s' g' = k2 s' g') ->
    m r k1 s g = m r k2 s g.
Proof.
  induction r as [p | a IHa b IHb | a IHa | n a IHa]; intros k1 k2 s g E; cbn [m].
  - destruct s as [|c t]; [reflexivity|].
    destruct (p c); [|reflexivity]. apply E. cbn [List.length]. lia.
  - apply IHa. intros s' g' L. apply IHb. intros s'' g'' L'. apply E. lia.
  - assert (loop : forall n s g,
               (forall s' g', (List.length s' <= List.length s)%nat ->
                              k1 s' g' = k2 s' g') ->
               star_loop (m a) k1 n s g = star_loop (m a) k2 n s g);
      [| apply loop; exact E].
    clear s g E.
    induction n as [|n IHn]; intros s g E; cbn [star_loop].
    + apply E. lia.
    + rewrite (IHa _ (fun s' g' =>
                        if (List.length s' <? List.length s)%nat
                        then star_loop (m a) k2 n s' g' else None)).
      * rewrite (E s g) by lia. reflexivity.
      * intros s' g' L. destruct (List.length s' <? List.length s)%nat; [|reflexivity].
        apply IHn. intros s'' g'' L'. apply E. lia.
  - apply IHa. intros s' g' L. apply E. exact L.
Qed.

(** A continuation that always refuses makes the matcher refuse. *)
Lemma m_refuse (r : regex) :
  forall (s : text) (g : caps), m r (fun _ _ => None) s g = None.
Proof.
  induction r as [p | a IHa b IHb | a IHa | n a IHa]; intros s g; cbn [m].
  - destruct s as [|c t]; [reflexivity|]. destruct (p c); reflexivity.
  - rewrite (m_ext a _ (fun _ _ => None)); [apply IHa|].
    intros s' g' _. apply IHb.
  - generalize (List.length s) at 1. intros n. revert s g.
    induction n as [|n IHn]; intros s g; cbn [star_loop]; [reflexivity|].
    rewrite (m_ext a _ (fun _ _ => None)); [rewrite IHa; reflexivity|].
    intros s' g' _. destruct (List.length s' <? List.length s)%nat; [|reflexivity].
    apply IHn.
  - apply IHa.
Qed.

(** Every bound that is at least the length of the input gives the loop
    the same answer: the bound [m] starts it with cuts no iteration off. *)
Lemma star_loop_bound (a : regex) (k : cont) (n : nat) :
  forall (n' : nat) (s : text) (g : caps),
    (List.length s <= n)%nat -> (List.length s <= n')%nat ->
    star_loop (m a) k n s g = star_loop (m a) k n' s g.
Proof.
  assert (stop : forall j s g,
             (List.length s <= 0)%nat ->
             star_loop (m a) k 0 s g = star_loop (m a) k j s g).
  { intros [|j] s g L; [reflexivity|]. cbn [star_loop].
    rewrite (m_ext a _ (fun _ _ => None)); [rewrite m_refuse; reflexivity|].
    intros s' g' L'.
    destruct (Nat.ltb_spec (List.length s') (List.length s)); [lia | reflexivity]. }
  induction n as [|n IH]; intros n' s g L L'.
  - apply stop. exact L.
  - destruct n' as [|n']; [symmetry; apply stop; exact L'|].
    cbn [star_loop].
    rewrite (m_ext a _ (fun s' g' =>
                          if (List.length s' <? List.length s)%nat
                          then star_loop (m a) k n' s' g' else None));
      [reflexivity|].
    intros s' g' _.
    destruct (Nat.ltb_spec (List.length s') (List.length s)); [|reflexivity].
    apply IH; lia.
Qed.

(* ================================================================== *)
(** * The stored floats, field by field *)
(* ================================================================== *)

Section Sweep.

Local Open Scope Z_scope.

(** A field value is itself as a machine integer. *)
Lemma to_Z_of_Z_small (z : Z) : 0 <= z < 10000 -> Uint63.to_Z (Uint63.of_Z z) = z.
Proof.
  intros H. rewrite Uint63.of_Z_spec. apply Z.mod_small.
  change wB with 9223372036854775808. lia.
Qed.

(** A sweep that answers [true] has checked every integer of its range. *)
Lemma all_upto_spec (fuel : nat) :
  forall (i : int) (p : int -> bool),
    all_upto fuel i p = true ->
    Uint63.to_Z i + Z.of_nat fuel < wB ->
    forall z, Uint63.to_Z i <= z < Uint63.to_Z i + Z.of_nat fuel ->
              p (Uint63.of_Z z) = true.
Proof.
  induction fuel as [|fuel IH]; intros i p H B z Hz.
  - lia.
  - simpl in H. apply andb_true_iff in H. destruct H as [Hi Hrest].
    destruct (Z.eq_dec z (Uint63.to_Z i)) as [->|Hne].
    + now rewrite Uint63.of_to_Z.
    + assert (E : Uint63.to_Z (i + 1)%uint63 = Uint63.to_Z i + 1).
      { rewrite Uint63.add_spec, Uint63.to_Z_1. apply Z.mod_small.
        pose proof (Uint63.to_Z_bounded i). lia. }
      apply (IH (i + 1)%uint63 p Hrest); rewrite E; lia.
Qed.

(** Every minutes field against every degrees field, both hemispheres. *)
Lemma check_all_ok : all_upto (100 * 100) 0%uint63 check_row = true.
Proof. vm_compute. reflexivity. Qed.

(** The sweep, read at one pair of field values. *)
Lemma sweep_point (deg n : Z) :
  0 <= deg < 1000 -> 0 <= n < 10000 ->
  check_point (Uint63.of_Z deg) (Uint63.of_Z n)
    (PrimFloat.div (PrimFloat.of_uint63 (Uint63.of_Z n)) 100) = true.
Proof.
  intros Hd Hn.
  assert (Bn : Uint63.to_Z 0 + Z.of_nat (100 * 100) < wB) by (vm_compute; reflexivity).
  assert (Bd : Uint63.to_Z 0 + Z.of_nat 1000 < wB) by (vm_compute; reflexivity).
  assert (In : Uint63.to_Z 0 <= n < Uint63.to_Z 0 + Z.of_nat (100 * 100)).
  { rewrite Uint63.to_Z_0. change (Z.of_nat (100 * 100)) with 10000. lia. }
  assert (Id : Uint63.to_Z 0 <= deg < Uint63.to_Z 0 + Z.of_nat 1000).
  { rewrite Uint63.to_Z_0. change (Z.of_nat 1000) with 1000. lia. }
  pose proof (all_upto_spec _ _ _ check_all_ok Bn n In) as Hrow.
  exact (all_upto_spec _ _ _ Hrow Bd deg Id).
Qed.

(** Comparisons of field values, as machine integers and as integers. *)
Lemma small_ltb (z bound : Z) :
  0 <= z < 10000 -> 0 <= bound < 10000 ->
  (Uint63.of_Z z <? Uint63.of_Z bound)%uint63 = (z <? bound).
Proof.
  intros Hz Hb.
  destruct (Z.ltb_spec z bound) as [L|L].
  - apply Uint63.ltb_spec. rewrite !to_Z_of_Z_small; lia.
  - apply not_true_is_false. intros T. apply Uint63.ltb_spec in T.
    rewrite !to_Z_of_Z_small in T; lia.
Qed.

Lemma small_eqb (z bound : Z) :
  0 <= z < 10000 -> 0 <= bound < 10000 ->
  (Uint63.of_Z z =? Uint63.of_Z bound)%uint63 = (z =? bound).
Proof.
  intros Hz Hb.
  destruct (Z.eqb_spec z bound) as [->|L].
  - apply Uint63.eqb_refl.
  - apply not_true_is_false. intros T. apply Uint63.eqb_spec in T.
    apply (f_equal Uint63.to_Z) in T. rewrite !to_Z_of_Z_small in T; lia.
Qed.

(** Signs: the stored value is never strictly on the wrong side of zero,
    and it is strictly on its own side unless every digit is zero. *)
Lemma sweep_sign (deg n : Z) (negative : bool) :
  0 <= deg < 1000 -> 0 <= n < 10000 ->
  let x := decimal_degrees deg n negative in
  let nonzero := negb ((deg =? 0) && (n =? 0)) in
  PrimFloat.ltb x 0 = negative && nonzero /\
  PrimFloat.ltb 0 x = negb negative && nonzero.
Proof.
  intros Hd Hn x nonzero.
  pose proof (sweep_point deg n Hd Hn) as H.
  unfold check_point in H. cbv zeta in H.
  change (Uint63.of_Z deg =? 0)%uint63 with (Uint63.of_Z deg =? Uint63.of_Z 0)%uint63 in H.
  change (Uint63.of_Z n =? 0)%uint63 with (Uint63.of_Z n =? Uint63.of_Z 0)%uint63 in H.
  rewrite !small_eqb in H by lia.
  split_andb.
  repeat match goal with
         | H : negb _ = true |- _ => apply negb_true_iff in H
         | H : Bool.eqb _ _ = true |- _ => apply Bool.eqb_prop in H
         end.
  subst x nonzero. unfold decimal_degrees, Py.float_of_int.
  change (PrimFloat.of_uint63 (Uint63.of_Z 100)) with 100%float.
  change (PrimFloat.of_uint63 (Uint63.of_Z 60)) with 60%float.
  destruct negative; simpl; auto.
Qed.

(** Bounds: three digits of degrees and four of minutes stay within 1001,
    two digits of degrees within 101; with minutes below 60.00, degrees
    below 180 stay within 180 and degrees below 90 within 90. *)
Lemma sweep_bounds (deg n : Z) (negative : bool) :
  0 <= deg < 1000 -> 0 <= n < 10000 ->
  let x := decimal_degrees deg n negative in
  within (-1001) 1001 x = true /\
  (deg < 100 -> within (-101) 101 x = true) /\
  (n < 6000 -> deg < 180 -> within (-180) 180 x = true) /\
  (n < 6000 -> deg < 90 -> within (-90) 90 x = true).
Proof.
  intros Hd Hn x.
  pose proof (sweep_point deg n Hd Hn) as H.
  unfold check_point in H. cbv zeta in H.
  change 100%uint63 with (Uint63.of_Z 100) in H.
  change 6000%uint63 with (Uint63.of_Z 6000) in H.
  change 180%uint63 with (Uint63.of_Z 180) in H.
  change 90%uint63 with (Uint63.of_Z 90) in H.
  rewrite !small_ltb in H by lia.
  split_andb.
  subst x. unfold decimal_degrees, Py.float_of_int.
  change (PrimFloat.of_uint63 (Uint63.of_Z 100)) with 100%float.
  change (PrimFloat.of_uint63 (Uint63.of_Z 60)) with 60%float.
  repeat split.
  - destruct negative; assumption.
  - intros L. apply Z.ltb_lt in L.
    match goal with H : (if deg <? 100 then _ else _) = true |- _ =>
      rewrite L in H; split_andb end.
    destruct negative; assumption.
  - intros L1 L2. apply Z.ltb_lt in L1, L2.
    match goal with H : (if n <? 6000 then _ else _) = true |- _ =>
      rewrite L1 in H; split_andb end.
    match goal with H : (if deg <? 180 then _ else _) = true |- _ =>
      rewrite L2 in H; split_andb end.
    destruct negative; assumption.
  - intros L1 L2. apply Z.ltb_lt in L1, L2.
    match goal with H : (if n <? 6000 then _ else _) = true |- _ =>
      rewrite L1 in H; split_andb end.
    match goal with H : (if deg <? 90 then _ else _) = true |- _ =>
      rewrite L2 in H; split_andb end.
    destruct negative; assumption.
Qed.

(** Round trip: with minutes below 60.00 the re-encoding gives the fields
    back. *)
Lemma sweep_roundtrip (deg n : Z) (negative : bool) :
  0 <= deg < 1000 -> 0 <= n < 6000 ->
  reencode (decimal_degrees deg n negative) = (deg, n).
Proof.
  intros Hd Hn.
  assert (Hn' : 0 <= n < 10000) by lia.
  pose proof (sweep_point deg n Hd Hn') as H.
  unfold check_point in H. cbv zeta in H.
  change 6000%uint63 with (Uint63.of_Z 6000) in H.
  rewrite (small_ltb n 6000) in H by lia.
  split_andb.
  assert (L : (n <? 6000) = true) by (apply Z.ltb_lt; lia).
  match goal with H : (if n <? 6000 then _ else _) = true |- _ =>
    rewrite L in H; split_andb end.
  unfold decimal_degrees, reencode, Py.float_of_int.
  change (PrimFloat.of_uint63 (Uint63.of_Z 100)) with 100%float.
  change (PrimFloat.of_uint63 (Uint63.of_Z 60)) with 60%float.
  assert (P : forall x,
             pair_eqb (reencode_int x) (Uint63.of_Z deg, Uint63.of_Z n) = true ->
             (Uint63.to_Z (fst (reencode_int x)),
              Uint63.to_Z (snd (reencode_int x))) = (deg, n)).
  { intros x E. unfold pair_eqb in E. cbn [fst snd] in E. split_andb.
    repeat match goal with
           | H : (_ =? _)%uint63 = true |- _ => apply Uint63.eqb_spec in H; rewrite H
           end.
    rewrite !to_Z_of_Z_small by lia. reflexivity. }
  destruct negative; apply P; assumption.
Qed.

End Sweep.

(* ================================================================== *)
(** * What the position pattern hands to the conversions *)
(* ================================================================== *)

Section PositionMatch.

Local Open Scope Z_scope.

(** A literal matches its own character only. *)
Lemma is_chr_eq (a : ascii) (c : char) : is_chr a c = true -> c = ord a.
Proof. unfold is_chr. apply N.eqb_eq. Qed.

(** The shape of every run of the position pattern. *)
Lemma position_run (w : text) (g : caps) :
  run position_re w [] g ->
  exists sym a1 a2 b1 b2 b3 b4 ns c1 c2 c3 e1 e2 e3 e4 ew,
    w = [sym; a1; a2; b1; b2; ord "."; b3; b4; ns; ord "/";
         c1; c2; c3; e1; e2; ord "."; e3; e4; ew] /\
    g = [(6%nat, [ew]); (5%nat, [e1; e2; ord "."; e3; e4]); (4%nat, [c1; c2; c3]);
         (3%nat, [ns]); (2%nat, [b1; b2; ord "."; b3; b4]); (1%nat, [a1; a2])] /\
    one_of "!" "=" sym = true /\
    Forall (fun c => isdecimal c = true)
           [a1; a2; b1; b2; b3; b4; c1; c2; c3; e1; e2; e3; e4] /\
    one_of "N" "S" ns = true /\ one_of "E" "W" ew = true.
Proof.
  intros R.
  unfold position_re, digit, Lit in R. cbn [run] in R. break. subst.
  repeat match goal with
         | H : is_chr _ _ = true |- _ => apply is_chr_eq in H; subst
         end.
  cbn [app].
  do 16 eexists. split; [reflexivity|]. split; [reflexivity|].
  repeat split; try assumption.
  repeat constructor; assumption.
Qed.

(** The shape of every match of the position pattern. *)
Lemma position_match (content : text) (g : caps) :
  search position_re content = Some g ->
  exists before rest sym a1 a2 b1 b2 b3 b4 ns c1 c2 c3 e1 e2 e3 e4 ew,
    content = before ++
              [sym; a1; a2; b1; b2; ord "."; b3; b4; ns; ord "/";
               c1; c2; c3; e1; e2; ord "."; e3; e4; ew] ++ rest /\
    g = [(6%nat, [ew]); (5%nat, [e1; e2; ord "."; e3; e4]); (4%nat, [c1; c2; c3]);
         (3%nat, [ns]); (2%nat, [b1; b2; ord "."; b3; b4]); (1%nat, [a1; a2])] /\
    one_of "!" "=" sym = true /\
    Forall (fun c => isdecimal c = true)
           [a1; a2; b1; b2; b3; b4; c1; c2; c3; e1; e2; e3; e4] /\
    one_of "N" "S" ns = true /\ one_of "E" "W" ew = true.
Proof.
  intros H. apply search_sound in H.
  destruct H as (before & w & rest & -> & R).
  apply position_run in R.
  destruct R as (sym & a1 & a2 & b1 & b2 & b3 & b4 & ns & c1 & c2 & c3 &
                 e1 & e2 & e3 & e4 & ew & -> & R).
  exists before, rest, sym, a1, a2, b1, b2, b3, b4, ns, c1, c2, c3, e1, e2, e3, e4, ew.
  split; [reflexivity | exact R].
Qed.

(** Decimal digits always read as a number, of as many places as there
    are digits. *)
Lemma digits_decimal (s : text) :
  Forall (fun c => isdecimal c = true) s ->
  forall acc, exists z,
    Py.digits acc s = Some z /\
    acc * 10 ^ Z.of_nat (List.length s) <= z
      < (acc + 1) * 10 ^ Z.of_nat (List.length s).
Proof.
  induction 1 as [|c s Hc _ IH]; intros acc.
  - exists acc. simpl. split; [reflexivity | lia].
  - apply isdecimal_value in Hc. destruct Hc as (v & Ev & Hv).
    destruct (IH (10 * acc + v)) as (z & Ez & Hz).
    exists z. cbn [Py.digits]. rewrite Ev. split; [exact Ez|].
    change (List.length (c :: s)) with (S (List.length s)).
    rewrite Nat2Z.inj_succ, Z.pow_succ_r by lia.
    set (P := 10 ^ Z.of_nat (List.length s)) in *.
    assert (0 < P) by (apply Z.pow_pos_nonneg; lia).
    nia.
Qed.

(** [int] never fails on a degrees field. *)
Lemma int_degrees (s : text) :
  s <> [] -> Forall (fun c => isdecimal c = true) s ->
  Py.int s = Ok (degrees_field s) /\
  0 <= degrees_field s < 10 ^ Z.of_nat (List.length s).
Proof.
  intros Hne Hs. destruct (digits_decimal s Hs 0) as (z & Ez & Hz).
  unfold Py.int, degrees_field. rewrite Ez.
  destruct s; [congruence|]. split; [reflexivity | lia].
Qed.

(** [float] never fails on a minutes field. *)
Lemma float_minutes (m1 m0 h1 h0 : char) :
  Forall (fun c => isdecimal c = true) [m1; m0; h1; h0] ->
  let s := [m1; m0; ord "."; h1; h0] in
  Py.float s =
    Ok (PrimFloat.div (Py.float_of_int (hundredths_field s)) (Py.float_of_int 100)) /\
  0 <= hundredths_field s < 10000.
Proof.
  intros Hs s. destruct (digits_decimal _ Hs 0) as (z & Ez & Hz).
  unfold Py.float, hundredths_field, s.
  replace (is_chr "." (ord ".")) with true by reflexivity.
  rewrite Ez. split; [reflexivity|].
  change (Z.of_nat (List.length [m1; m0; h1; h0])) with 4 in Hz. lia.
Qed.

End PositionMatch.

(* ================================================================== *)
(** * [_parse_position], statement by statement *)
(* ================================================================== *)

Section ParsePosition.

Local Open Scope Z_scope.

(** The fields of a match are well-formed for the conversions. *)
Lemma position_fields (content : text) (g : caps) :
  search position_re content = Some g ->
  (Py.int (group g 1) = Ok (degrees_field (group g 1)) /\
   0 <= degrees_field (group g 1) < 100) /\
  (Py.float (group g 2) =
     Ok (PrimFloat.div (Py.float_of_int (hundredths_field (group g 2)))
                       (Py.float_of_int 100)) /\
   0 <= hundredths_field (group g 2) < 10000) /\
  (group g 3 = str "N" \/ group g 3 = str "S") /\
  (Py.int (group g 4) = Ok (degrees_field (group g 4)) /\
   0 <= degrees_field (group g 4) < 1000) /\
  (Py.float (group g 5) =
     Ok (PrimFloat.div (Py.float_of_int (hundredths_field (group g 5)))
                       (Py.float_of_int 100)) /\
   0 <= hundredths_field (group g 5) < 10000) /\
  (group g 6 = str "E" \/ group g 6 = str "W").
Proof.
  intros H. apply position_match in H.
  destruct H as (before & rest & sym & a1 & a2 & b1 & b2 & b3 & b4 & ns &
                 c1 & c2 & c3 & e1 & e2 & e3 & e4 & ew & _ & -> & _ & D & NS & EW).
  cbn [group Nat.eqb].
  repeat match goal with
         | H : Forall _ (_ :: _) |- _ => inversion H; subst; clear H
         end.
  assert (hemi : forall a b c, one_of a b c = true ->
                               [c] = str (String a EmptyString) \/
                               [c] = str (String b EmptyString)).
  { intros a b c O. unfold one_of in O. apply orb_true_iff in O.
    destruct O as [O|O]; apply is_chr_eq in O; subst; auto. }
  assert (I1 := int_degrees [a1; a2]).
  assert (F2 := float_minutes b1 b2 b3 b4).
  assert (I4 := int_degrees [c1; c2; c3]).
  assert (F5 := float_minutes e1 e2 e3 e4).
  split; [apply I1; [discriminate | repeat constructor; assumption]|].
  split; [apply F2; repeat constructor; assumption|].
  split; [exact (hemi "N" "S" ns NS)%char|].
  split; [apply I4; [discriminate | repeat constructor; assumption]|].
  split; [apply F5; repeat constructor; assumption|].
  exact (hemi "E" "W" ew EW)%char.
Qed.

(** On a match both coordinates are stored, and the comment comes from the
    second search. *)
Lemma parse_position_match (content : text) (self : t) (g : caps) :
  search position_re content = Some g ->
  fst (_parse_position content self) =
    mk (raw self) (source self) (destination self) (path self) (message_type self)
       (Some (decimal_degrees (degrees_field (group g 1)) (hundredths_field (group g 2))
                              (Py.text_eqb (group g 3) (str "S"))))
       (Some (decimal_degrees (degrees_field (group g 4)) (hundredths_field (group g 5))
                              (Py.text_eqb (group g 6) (str "W"))))
       (match search after_re content with
        | Some after_pos => strip (group after_pos 1)
        | None => comment self
        end)
       (timestamp self).
Proof.
  intros H.
  destruct (position_fields content g H)
    as ((I1 & _) & (F2 & _) & _ & (I4 & _) & (F5 & _) & _).
  unfold _parse_position, try_except. rewrite H.
  run_monad. rewrite I1. run_monad. rewrite F2. run_monad.
  rewrite I4. run_monad. rewrite F5. run_monad.
  unfold decimal_degrees.
  destruct (Py.text_eqb (group g 3) (str "S")); run_monad;
    destruct (Py.text_eqb (group g 6) (str "W")); run_monad;
    destruct (search after_re content); run_monad; reflexivity.
Qed.

(** Without a match nothing is touched. *)
Lemma parse_position_nomatch (content : text) (self : t) :
  search position_re content = None ->
  fst (_parse_position content self) = self.
Proof.
  intros H. unfold _parse_position, try_except. rewrite H. reflexivity.
Qed.

(** [_parse_position] writes the coordinates and the comment only. *)
Lemma parse_position_frame (content : text) (self : t) :
  let p := fst (_parse_position content self) in
  raw p = raw self /\ source p = source self /\
  destination p = destination self /\ path p = path self /\
  message_type p = message_type self /\ timestamp p = timestamp self.
Proof.
  destruct (search position_re content) as [g|] eqn:H; cbv zeta.
  - rewrite (parse_position_match content self g H). cbn. auto 10.
  - rewrite (parse_position_nomatch content self H). auto 10.
Qed.

End ParsePosition.

(* ================================================================== *)
(** * What the address pattern captures *)
(* ================================================================== *)

(** A starred character set matches a run of that set and assigns no
    group. *)
Lemma iter_set (p : char -> bool) (w : text) (g g' : caps) :
  iter (run (Set_ p)) w g g' -> Forall (fun c => p c = true) w /\ g' = g.
Proof.
  induction 1 as [g | w1 w2 g g1 g2 R1 _ IH].
  - split; [constructor | reflexivity].
  - cbn [run] in R1. destruct R1 as (c & -> & P & ->).
    destruct IH as [IH ->]. split; [|reflexivity].
    constructor; assumption.
Qed.

Lemma plus_set (p : char -> bool) (w : text) (g g' : caps) :
  run (Plus (Set_ p)) w g g' ->
  w <> [] /\ Forall (fun c => p c = true) w /\ g' = g.
Proof.
  unfold Plus. cbn [run]. intros (w1 & w2 & g1 & -> & (c & -> & P & ->) & I).
  apply iter_set in I. destruct I as [I ->].
  repeat split; [discriminate | constructor; assumption].
Qed.

Lemma iter_path (w : text) (g g' : caps) :
  iter (run (Lit "," +> Plus (Set_ path_set))) w g g' ->
  path_text w /\ g' = g.
Proof.
  induction 1 as [g | w1 w2 g g1 g2 R1 _ IH].
  - split; [constructor | reflexivity].
  - unfold Lit in R1. cbn [run] in R1.
    destruct R1 as (wc & we & gc & -> & (c & -> & C & ->) & E).
    apply is_chr_eq in C. subst c.
    change (run (Plus (Set_ path_set)) we g g1) in E.
    apply plus_set in E. destruct E as (Ne & Fe & ->).
    destruct IH as [IH ->]. split; [|reflexivity].
    cbn [app]. constructor; assumption.
Qed.

(** The shape of every match of the address pattern. *)
Lemma base_match (line : text) (g : caps) :
  search base_re line = Some g ->
  exists src dst pth content,
    g = [(4, content); (3, pth); (2, dst); (1, src)] /\
    (src <> [] /\ Forall (fun c => callsign_set c = true) src) /\
    (dst <> [] /\ Forall (fun c => callsign_set c = true) dst) /\
    path_text pth /\
    Forall (fun c => any c = true) content.
Proof.
  intros H. apply search_sound in H.
  destruct H as (before & w & rest & -> & R).
  unfold base_re in R.
  destruct R as (w1 & r1 & g1 & -> & (g1' & R1 & ->) & R).
  apply plus_set in R1. destruct R1 as (N1 & F1 & ->).
  destruct R as (ws1 & r2 & gs1 & -> & S1 & R).
  apply iter_set in S1. destruct S1 as [_ ->].
  destruct R as (wgt & r3 & ggt & -> & (c & -> & _ & ->) & R).
  destruct R as (ws2 & r4 & gs2 & -> & S2 & R).
  apply iter_set in S2. destruct S2 as [_ ->].
  destruct R as (w2 & r5 & g2 & -> & (g2' & R2 & ->) & R).
  apply plus_set in R2. destruct R2 as (N2 & F2 & ->).
  destruct R as (w3 & r6 & g3 & -> & (g3' & R3 & ->) & R).
  apply iter_path in R3. destruct R3 as [P3 ->].
  destruct R as (wc & w4 & gc & -> & (c' & -> & _ & ->) & (g4' & R4 & ->)).
  apply iter_set in R4. destruct R4 as [F4 ->].
  exists w1, w2, w3, w4. auto 10.
Qed.

(** ** Splitting the path *)

Lemma path_set_not_comma (c : char) : path_set c = true -> is_chr "," c = false.
Proof.
  unfold path_set, between, is_chr. intros H.
  apply N.eqb_neq. intros ->. vm_compute in H. discriminate.
Qed.

Lemma split_run (e : text) :
  Forall (fun c => path_set c = true) e ->
  split "," e = [e] /\
  forall rest, split "," (e ++ ord "," :: rest) = e :: split "," rest.
Proof.
  induction 1 as [|c e Hc _ [IH1 IH2]].
  - split; [reflexivity|]. intros rest. reflexivity.
  - apply path_set_not_comma in Hc. split.
    + cbn [split]. rewrite Hc, IH1. reflexivity.
    + intros rest. cbn [split app]. rewrite Hc, IH2. reflexivity.
Qed.

Lemma split_path (w : text) :
  path_text w ->
  forall e, path_element e -> Forall path_element (split "," (e ++ w)).
Proof.
  induction 1 as [|e' rest Ne Fe _ IH]; intros e He.
  - rewrite app_nil_r. destruct (split_run e (proj2 He)) as [-> _].
    constructor; [assumption | constructor].
  - destruct (split_run e (proj2 He)) as [_ ->].
    constructor; [assumption|]. apply IH. split; assumption.
Qed.

(** What [parse] stores as the path. *)
Lemma path_of_group (w : text) :
  path_text w ->
  Forall path_element
         (match w with
          | [] => []
          | _ :: _ => split "," (drop1 w)
          end).
Proof.
  destruct 1 as [|e rest Ne Fe P]; [constructor|].
  cbn [drop1 tl]. apply split_path; [assumption | split; assumption].
Qed.

(* ================================================================== *)
(** * [parse], statement by statement *)
(* ================================================================== *)

Lemma parse_match (self : t) (parts : caps) :
  search base_re (raw self) = Some parts ->
  fst (parse self) =
    let s := addressed self parts in
    let content := strip (group parts 4) in
    if startswith "!" content || startswith "=" content then
      fst (_parse_position content (classified s (str "Position") (comment self)))
    else if startswith ">" content then
      classified s (str "Status") (strip (drop1 content))
    else if startswith ":" content then
      classified s (str "Message") (strip (drop1 content))
    else if startswith "T" content then
      classified s (str "Telemetry") (strip content)
    else
      classified s (str "Other") (strip content).
Proof.
  intros H. unfold parse, try_except. run_monad. rewrite H. run_monad.
  unfold addressed, classified. cbv zeta.
  destruct (group parts 3); run_monad;
    destruct (startswith "!" (strip (group parts 4)) || startswith "=" (strip (group parts 4)));
    try reflexivity;
    destruct (startswith ">" (strip (group parts 4))); run_monad; try reflexivity;
    destruct (startswith ":" (strip (group parts 4))); run_monad; try reflexivity;
    destruct (startswith "T" (strip (group parts 4))); run_monad; reflexivity.
Qed.

Lemma parse_nomatch (self : t) :
  search base_re (raw self) = None -> fst (parse self) = self.
Proof.
  intros H. unfold parse, try_except. run_monad. rewrite H. reflexivity.
Qed.

(** The constructor always returns the object [parse] leaves. *)
Lemma new_ok (raw_packet : text) (now : Z) :
  new raw_packet now =
    Ok (fst (parse (mk raw_packet [] [] [] [] None None [] now))).
Proof. reflexivity. Qed.

(** A character that cannot start a SOURCE is stepped over. *)
Lemma search_base_skip (before line : text) :
  Forall (fun c => callsign_set c = false) before ->
  search base_re (before ++ line) = search base_re line.
Proof.
  induction 1 as [|c before Hc _ IH]; [reflexivity|].
  cbn [app search]. rewrite IH.
  unfold base_re at 1, Plus at 1. cbn [m]. rewrite Hc. reflexivity.
Qed.

(* ================================================================== *)
(** * The decoder's properties *)
(* ================================================================== *)

(** What survives every branch of [parse]. *)
Lemma parse_frame (self : t) :
  raw (fst (parse self)) = raw self /\
  timestamp (fst (parse self)) = timestamp self.
Proof.
  destruct (search base_re (raw self)) as [parts|] eqn:H.
  - rewrite (parse_match self parts H). cbv zeta.
    repeat match goal with
           | |- context [if ?b then _ else _] => destruct b
           end;
      try (split; reflexivity).
    destruct (parse_position_frame
                (strip (group parts 4))
                (classified (addressed self parts) (str "Position") (comment self)))
      as (R & _ & _ & _ & _ & T).
    rewrite R, T. split; reflexivity.
  - rewrite (parse_nomatch self H). split; reflexivity.
Qed.

(** C4. Constructing a packet never raises and yields one record, whose
    [raw] is the input line and whose [timestamp] is the construction
    time; when the address pattern matches nowhere in the line, every
    other field keeps its default: empty source, destination, comment and
    message type, empty path, no latitude and no longitude. *)
Theorem constructor_never_raises (raw_packet : text) (now : Z) :
  exists p,
    new raw_packet now = Ok p /\
    raw p = raw_packet /\ timestamp p = now /\
    (search base_re raw_packet = None ->
     p = mk raw_packet [] [] [] [] None None [] now).
Proof.
  exists (fst (parse (blank raw_packet now))).
  destruct (parse_frame (blank raw_packet now)) as [R T].
  repeat split.
  - exact R.
  - exact T.
  - intros H. apply (parse_nomatch (blank raw_packet now)). exact H.
Qed.

(** The degraded record of a line without structure. *)
Example garbage_line (now : Z) :
  new (str "garbage line with no structure") now =
    Ok (mk (str "garbage line with no structure") [] [] [] [] None None [] now).
Proof. reflexivity. Qed.

(** C8. Latitude and longitude are both present or both absent. *)
Theorem coordinates_both_or_neither (raw_packet : text) (now : Z) :
  exists p,
    new raw_packet now = Ok p /\
    ((exists x y, latitude p = Some x /\ longitude p = Some y) \/
     (latitude p = None /\ longitude p = None)).
Proof.
  exists (fst (parse (blank raw_packet now))). split; [reflexivity|].
  destruct (search base_re raw_packet) as [parts|] eqn:H.
  - rewrite (parse_match (blank raw_packet now) parts H). cbv zeta.
    repeat match goal with
           | |- context [if ?b then _ else _] => destruct b
           end;
      try (right; split; reflexivity).
    set (content := strip (group parts 4)).
    set (self := classified _ _ _).
    destruct (search position_re content) as [g|] eqn:P.
    + rewrite (parse_position_match content self g P). left.
      eexists. eexists. split; reflexivity.
    + rewrite (parse_position_nomatch content self P).
      right. split; reflexivity.
  - rewrite (parse_nomatch (blank raw_packet now) H). right. split; reflexivity.
Qed.

(** C9. The path never holds an empty string: it is empty when group 3 is
    empty, and otherwise each element is a non-empty run of the path set
    (capital letters, digits, hyphen, asterisk). *)
Theorem path_has_no_empty_element (raw_packet : text) (now : Z) :
  exists p,
    new raw_packet now = Ok p /\
    Forall path_element (path p) /\
    (forall parts,
        search base_re raw_packet = Some parts ->
        group parts 3 = [] -> path p = []).
Proof.
  exists (fst (parse (blank raw_packet now))). split; [reflexivity|].
  destruct (search base_re raw_packet) as [parts|] eqn:H.
  - assert (E : path (fst (parse (blank raw_packet now))) =
                match group parts 3 with
                | [] => []
                | _ :: _ => split "," (drop1 (group parts 3))
                end).
    { rewrite (parse_match (blank raw_packet now) parts H). cbv zeta.
      destruct (startswith "!" _ || startswith "=" _);
        [| repeat match goal with
                  | |- context [if startswith ?a ?c then _ else _] =>
                      destruct (startswith a c)
                  end; reflexivity].
      destruct (parse_position_frame
                  (strip (group parts 4))
                  (classified (addressed (blank raw_packet now) parts)
                              (str "Position") (comment (blank raw_packet now))))
        as (_ & _ & _ & Q & _).
      rewrite Q. reflexivity. }
    rewrite E. split.
    + destruct (base_match raw_packet parts H)
        as (src & dst & pth & content & -> & _ & _ & P & _).
      cbn [group Nat.eqb]. apply path_of_group. exact P.
    + intros parts' Hp G. injection Hp as <-. rewrite G. reflexivity.
  - rewrite (parse_nomatch (blank raw_packet now) H). split.
    + constructor.
    + intros parts Hp. discriminate.
Qed.

(** A frame with two path elements, the second marked as used. *)
Example path_two_elements (now : Z) :
  exists p, new (str "N0CALL>APRS,WIDE1-1,WIDE2*:>hi") now = Ok p /\
            path p = [str "WIDE1-1"; str "WIDE2*"].
Proof. eexists. split; reflexivity. Qed.

(** The type [parse] stores is decided by the first character of the
    trimmed content, and [_parse_position] never changes it. *)
Lemma parse_message_type (self : t) (parts : caps) :
  search base_re (raw self) = Some parts ->
  message_type (fst (parse self)) =
    let content := strip (group parts 4) in
    if startswith "!" content || startswith "=" content then str "Position"
    else if startswith ">" content then str "Status"
    else if startswith ":" content then str "Message"
    else if startswith "T" content then str "Telemetry"
    else str "Other".
Proof.
  intros H. rewrite (parse_match self parts H). cbv zeta.
  destruct (startswith "!" _ || startswith "=" _).
  - destruct (parse_position_frame
                (strip (group parts 4))
                (classified (addressed self parts) (str "Position") (comment self)))
      as (_ & _ & _ & _ & K & _).
    rewrite K. reflexivity.
  - repeat match goal with
           | |- context [if startswith ?a ?c then _ else _] =>
               destruct (startswith a c)
           end; reflexivity.
Qed.

(** C7. The classifier looks at the first character of the trimmed content
    only: [!] or [=] gives Position, [>] Status, [:] Message, [T]
    Telemetry, anything else (the empty content too) Other.  The five
    rules exclude one another, so the first that applies is the only one
    that applies, and what follows the first character plays no part. *)
Theorem classifier_dispatch (raw_packet : text) (now : Z) (parts : caps) :
  search base_re raw_packet = Some parts ->
  exists p,
    new raw_packet now = Ok p /\
    let content := strip (group parts 4) in
    (startswith "!" content = true \/ startswith "=" content = true ->
     message_type p = str "Position") /\
    (startswith ">" content = true -> message_type p = str "Status") /\
    (startswith ":" content = true -> message_type p = str "Message") /\
    (startswith "T" content = true -> message_type p = str "Telemetry") /\
    (startswith "!" content = false -> startswith "=" content = false ->
     startswith ">" content = false -> startswith ":" content = false ->
     startswith "T" content = false -> message_type p = str "Other").
Proof.
  intros H. exists (fst (parse (blank raw_packet now))).
  split; [reflexivity|].
  rewrite (parse_message_type (blank raw_packet now) parts H). cbv zeta.
  destruct (strip (group parts 4)) as [|c content].
  - cbn [startswith orb]. repeat split; try discriminate.
    intros [F|F]; discriminate.
  - cbn [startswith]. repeat split.
    + intros [F|F]; rewrite F; [reflexivity | rewrite orb_true_r; reflexivity].
    + intros F. apply is_chr_eq in F. subst c. reflexivity.
    + intros F. apply is_chr_eq in F. subst c. reflexivity.
    + intros F. apply is_chr_eq in F. subst c. reflexivity.
    + intros F1 F2 F3 F4 F5. rewrite F1, F2, F3, F4, F5. reflexivity.
Qed.

(** The spec's case: [>] after a position does not make a Status. *)
Lemma classifier_dispatch_witness :
  search base_re (str "N0CALL>APRS:!4903.50N/07201.75W>test") =
    Some [(4, str "!4903.50N/07201.75W>test"); (3, []);
          (2, str "APRS"); (1, str "N0CALL")]%nat /\
  exists p,
    new (str "N0CALL>APRS:!4903.50N/07201.75W>test") 0 = Ok p /\
    message_type p = str "Position".
Proof.
  split; [reflexivity|].
  destruct (classifier_dispatch
              (str "N0CALL>APRS:!4903.50N/07201.75W>test") 0 _ eq_refl)
    as (p & E & Position & _).
  exists p. split; [exact E|]. apply Position. left. reflexivity.
Defined.

Lemma parse_position_raw (content : text) (p q : t) :
  same_decoding p q ->
  same_decoding (fst (_parse_position content p)) (fst (_parse_position content q)).
Proof.
  intros S. destruct (search position_re content) as [g|] eqn:P.
  - rewrite (parse_position_match content p g P), (parse_position_match content q g P).
    unfold same_decoding in *. cbn.
    destruct S as (-> & -> & -> & -> & _ & _ & ->). auto 10.
  - rewrite (parse_position_nomatch content p P), (parse_position_nomatch content q P).
    exact S.
Qed.

Lemma parse_raw (line1 line2 : text) (now : Z) :
  search base_re line1 = search base_re line2 ->
  same_decoding (fst (parse (blank line1 now))) (fst (parse (blank line2 now))).
Proof.
  intros E. destruct (search base_re line2) as [parts|] eqn:H.
  - rewrite (parse_match (blank line1 now) parts E), (parse_match (blank line2 now) parts H).
    cbv zeta.
    destruct (startswith "!" _ || startswith "=" _).
    + apply parse_position_raw. unfold same_decoding. cbn. auto 10.
    + repeat match goal with
             | |- context [if startswith ?a ?c then _ else _] =>
                 destruct (startswith a c)
             end; unfold same_decoding; cbn; auto 10.
  - rewrite (parse_nomatch (blank line1 now) E), (parse_nomatch (blank line2 now) H).
    unfold same_decoding. cbn. auto 10.
Qed.

(** C10. The address pattern is searched for, not anchored: characters in
    front of a frame that cannot start a SOURCE are stepped over, and the
    line decodes to the same source, destination, path, type, coordinates
    and comment as the frame alone; only [raw] keeps the whole line. *)
Theorem unanchored_match (before line : text) (now : Z) :
  Forall (fun c => callsign_set c = false) before ->
  exists p q,
    new (before ++ line) now = Ok p /\
    new line now = Ok q /\
    raw p = before ++ line /\
    same_decoding p q.
Proof.
  intros B.
  exists (fst (parse (blank (before ++ line) now))), (fst (parse (blank line now))).
  split; [reflexivity|]. split; [reflexivity|]. split.
  - apply (parse_frame (blank (before ++ line) now)).
  - apply parse_raw. apply search_base_skip. exact B.
Qed.

(** A lower-case, punctuated prefix in front of a frame: the record is
    populated from the frame. *)
Lemma unanchored_match_witness :
  Forall (fun c => callsign_set c = false) (str "rx: ") /\
  exists p,
    new (str "rx: N0CALL>APRS,WIDE1-1:>on the air") 0 = Ok p /\
    source p = str "N0CALL" /\ destination p = str "APRS" /\
    path p = [str "WIDE1-1"] /\ message_type p = str "Status" /\
    comment p = str "on the air".
Proof.
  assert (B : Forall (fun c => callsign_set c = false) (str "rx: ")).
  { repeat constructor. }
  split; [exact B|].
  destruct (unanchored_match (str "rx: ") (str "N0CALL>APRS,WIDE1-1:>on the air") 0 B)
    as (p & q & Ep & Eq & _ & S & D & P & K & _ & _ & C).
  exists p. split; [exact Ep|].
  vm_compute in Eq. injection Eq as <-.
  rewrite S, D, P, K, C. repeat split.
Defined.

(** The record of that line: populated, not degraded. *)
Example embedded_frame (now : Z) :
  new (str "rx: N0CALL>APRS,WIDE1-1:>on the air") now =
    Ok (mk (str "rx: N0CALL>APRS,WIDE1-1:>on the air")
           (str "N0CALL") (str "APRS") [str "WIDE1-1"] (str "Status")
           None None (str "on the air") now).
Proof. reflexivity. Qed.

(* ================================================================== *)
(** * Coordinates *)
(* ================================================================== *)

Section Coordinates.

Local Open Scope Z_scope.

(** The sign law, for either coordinate. *)
Lemma sign_law (deg n : Z) (letter pos neg : text) :
  0 <= deg < 1000 -> 0 <= n < 10000 ->
  pos <> neg -> letter = pos \/ letter = neg ->
  follows_hemisphere letter neg pos deg n
    (decimal_degrees deg n (Py.text_eqb letter neg)).
Proof.
  intros Hd Hn Hpn Hletter.
  destruct (sweep_sign deg n (Py.text_eqb letter neg) Hd Hn) as (L & G).
  cbv zeta in L, G. unfold follows_hemisphere. rewrite L, G. clear L G.
  assert (NZ : negb ((deg =? 0) && (n =? 0)) = true <-> (deg, n) <> (0, 0)).
  { rewrite negb_true_iff, andb_false_iff, !Z.eqb_neq.
    split.
    - intros [N|N] E; injection E as E1 E2; contradiction.
    - intros N. destruct (Z.eq_dec deg 0) as [->|]; [|auto].
      right. intros ->. apply N. reflexivity. }
  destruct (Py.text_eqb letter neg) eqn:T; cbn [negb andb].
  - apply text_eqb_eq in T. subst letter. split; [|split].
    + split; [intros N; split; [reflexivity | apply NZ; exact N]
             | intros [_ N]; apply NZ; exact N].
    + split; [discriminate | intros [E _]; congruence].
    + intros E. injection E as -> ->. reflexivity.
  - assert (Ne : letter <> neg) by (intros E; apply text_eqb_eq in E; congruence).
    assert (Ep : letter = pos) by (destruct Hletter; [assumption | contradiction]).
    split; [|split].
    + split; [discriminate | intros [E _]; contradiction].
    + split; [intros N; split; [exact Ep | apply NZ; exact N]
             | intros [_ N]; apply NZ; exact N].
    + intros E. injection E as -> ->. reflexivity.
Qed.

(** C2, as the code has it.  On every match both coordinates are stored;
    the latitude stays within 101 and the longitude within 1001 of zero,
    which is all two and three digits of degrees and [99.99] minutes
    allow.  The geographic ranges hold when the fields are geographic:
    latitude in [-90, 90] when its degrees are below 90 and its minutes
    below 60.00, longitude in [-180, 180] when its degrees are below 180
    and its minutes below 60.00. *)
Theorem position_range (content : text) (self : t) (g : caps) :
  search position_re content = Some g ->
  exists lat lon,
    latitude (fst (_parse_position content self)) = Some lat /\
    longitude (fst (_parse_position content self)) = Some lon /\
    within (-101) 101 lat = true /\
    within (-1001) 1001 lon = true /\
    (degrees_field (group g 1) < 90 -> hundredths_field (group g 2) < 6000 ->
     within (-90) 90 lat = true) /\
    (degrees_field (group g 4) < 180 -> hundredths_field (group g 5) < 6000 ->
     within (-180) 180 lon = true).
Proof.
  intros H.
  destruct (position_fields content g H)
    as ((_ & D1) & (_ & M2) & _ & (_ & D4) & (_ & M5) & _).
  rewrite (parse_position_match content self g H). cbn [latitude longitude].
  eexists. eexists. split; [reflexivity|]. split; [reflexivity|].
  destruct (sweep_bounds (degrees_field (group g 1)) (hundredths_field (group g 2))
              (Py.text_eqb (group g 3) (str "S"))) as (_ & B101 & _ & B90);
    [lia | lia |].
  destruct (sweep_bounds (degrees_field (group g 4)) (hundredths_field (group g 5))
              (Py.text_eqb (group g 6) (str "W"))) as (B1001 & _ & B180 & _);
    [lia | lia |].
  repeat split.
  - apply B101. lia.
  - exact B1001.
  - intros Ld Lm. apply B90; assumption.
  - intros Ld Lm. apply B180; assumption.
Qed.

Lemma position_range_witness :
  exists lat lon,
    latitude (fst (_parse_position (str "!4903.50N/07201.75W-Test position")
                                   (blank [] 0))) = Some lat /\
    longitude (fst (_parse_position (str "!4903.50N/07201.75W-Test position")
                                    (blank [] 0))) = Some lon /\
    within (-90) 90 lat = true /\ within (-180) 180 lon = true.
Proof.
  destruct (position_range (str "!4903.50N/07201.75W-Test position") (blank [] 0)
              [(6, str "W"); (5, str "01.75"); (4, str "072");
               (3, str "N"); (2, str "03.50"); (1, str "49")]%nat eq_refl)
    as (lat & lon & Elat & Elon & _ & _ & Rlat & Rlon).
  exists lat, lon. split; [exact Elat|]. split; [exact Elon|]. split.
  - apply Rlat; vm_compute; reflexivity.
  - apply Rlon; vm_compute; reflexivity.
Defined.

(** The pattern accepts 99 degrees and 99.99 minutes of latitude: the
    decoded latitude is below -90. *)
Lemma position_out_of_range :
  exists g lat,
    search position_re (str "!9999.99S/17201.75E") = Some g /\
    latitude (fst (_parse_position (str "!9999.99S/17201.75E") (blank [] 0)))
      = Some lat /\
    PrimFloat.ltb lat (-90) = true /\
    within (-90) 90 lat = false.
Proof.
  eexists. eexists. split; [reflexivity|]. split; [reflexivity|].
  split; vm_compute; reflexivity.
Qed.

(** C6, as the code has it.  The latitude is strictly negative exactly
    when the hemisphere letter is [S] and its digits are not all zero, and
    strictly positive exactly when the letter is [N] and its digits are
    not all zero; fields of zeros decode to a zero with the hemisphere's
    sign, which is neither negative nor positive.  The same holds for the
    longitude with [W] and [E]. *)
Theorem hemisphere_sign (content : text) (self : t) (g : caps) :
  search position_re content = Some g ->
  exists lat lon,
    latitude (fst (_parse_position content self)) = Some lat /\
    longitude (fst (_parse_position content self)) = Some lon /\
    follows_hemisphere (group g 3) (str "S") (str "N")
      (degrees_field (group g 1)) (hundredths_field (group g 2)) lat /\
    follows_hemisphere (group g 6) (str "W") (str "E")
      (degrees_field (group g 4)) (hundredths_field (group g 5)) lon.
Proof.
  intros H.
  destruct (position_fields content g H)
    as ((_ & D1) & (_ & M2) & NS & (_ & D4) & (_ & M5) & EW).
  rewrite (parse_position_match content self g H). cbn [latitude longitude].
  eexists. eexists. split; [reflexivity|]. split; [reflexivity|].
  split; apply sign_law; try lia; try discriminate; tauto.
Qed.

Lemma hemisphere_sign_witness :
  exists lat lon,
    latitude (fst (_parse_position (str "!4903.50S/07201.75E") (blank [] 0)))
      = Some lat /\
    longitude (fst (_parse_position (str "!4903.50S/07201.75E") (blank [] 0)))
      = Some lon /\
    PrimFloat.ltb lat 0 = true /\ PrimFloat.ltb 0 lon = true.
Proof.
  destruct (hemisphere_sign (str "!4903.50S/07201.75E") (blank [] 0)
              [(6, str "E"); (5, str "01.75"); (4, str "072");
               (3, str "S"); (2, str "03.50"); (1, str "49")]%nat eq_refl)
    as (lat & lon & Elat & Elon & (South & _) & (_ & East & _)).
  exists lat, lon. split; [exact Elat|]. split; [exact Elon|]. split.
  - apply South. split; [reflexivity | vm_compute; discriminate].
  - apply East. split; [reflexivity | vm_compute; discriminate].
Defined.

(** Fields of zeros in the southern and western hemispheres: the stored
    coordinates are zeros, not negative numbers. *)
Lemma zero_is_not_negative :
  exists g lat lon,
    search position_re (str "!0000.00S/00000.00W") = Some g /\
    group g 3 = str "S" /\ group g 6 = str "W" /\
    latitude (fst (_parse_position (str "!0000.00S/00000.00W") (blank [] 0)))
      = Some lat /\
    longitude (fst (_parse_position (str "!0000.00S/00000.00W") (blank [] 0)))
      = Some lon /\
    PrimFloat.ltb lat 0 = false /\ PrimFloat.ltb lon 0 = false.
Proof.
  do 3 eexists. split; [reflexivity|].
  split; [reflexivity|]. split; [reflexivity|].
  split; [reflexivity|]. split; [reflexivity|].
  split; vm_compute; reflexivity.
Qed.

(** C3, as the code has it.  When both minutes fields are below 60.00,
    re-encoding the stored coordinates gives back the degrees fields and
    the minutes fields to the hundredth. *)
Theorem position_roundtrip (content : text) (self : t) (g : caps) :
  search position_re content = Some g ->
  hundredths_field (group g 2) < 6000 ->
  hundredths_field (group g 5) < 6000 ->
  exists lat lon,
    latitude (fst (_parse_position content self)) = Some lat /\
    longitude (fst (_parse_position content self)) = Some lon /\
    reencode lat = (degrees_field (group g 1), hundredths_field (group g 2)) /\
    reencode lon = (degrees_field (group g 4), hundredths_field (group g 5)).
Proof.
  intros H L2 L5.
  destruct (position_fields content g H)
    as ((_ & D1) & (_ & M2) & _ & (_ & D4) & (_ & M5) & _).
  rewrite (parse_position_match content self g H). cbn [latitude longitude].
  eexists. eexists. split; [reflexivity|]. split; [reflexivity|].
  split; apply sweep_roundtrip; lia.
Qed.

Lemma position_roundtrip_witness :
  exists lat lon,
    latitude (fst (_parse_position (str "!4903.50N/07201.75W-Test position")
                                   (blank [] 0))) = Some lat /\
    longitude (fst (_parse_position (str "!4903.50N/07201.75W-Test position")
                                    (blank [] 0))) = Some lon /\
    reencode lat = (49, 350) /\ reencode lon = (72, 175).
Proof.
  refine (position_roundtrip (str "!4903.50N/07201.75W-Test position") (blank [] 0)
            [(6, str "W"); (5, str "01.75"); (4, str "072");
             (3, str "N"); (2, str "03.50"); (1, str "49")]%nat eq_refl _ _);
    vm_compute; reflexivity.
Defined.

(** Sixty minutes carry into the degrees: [4960.00N] and [5000.00N] are
    stored as the same float, 50.0, so no re-encoding can give both pairs
    of fields back; the one of the spec gives 50 degrees and 00.00
    minutes. *)
Lemma sixty_minutes_carry :
  exists g g' lat,
    search position_re (str "!4960.00N/07201.75W") = Some g /\
    search position_re (str "!5000.00N/07201.75W") = Some g' /\
    latitude (fst (_parse_position (str "!4960.00N/07201.75W") (blank [] 0)))
      = Some lat /\
    latitude (fst (_parse_position (str "!5000.00N/07201.75W") (blank [] 0)))
      = Some lat /\
    (degrees_field (group g 1), hundredths_field (group g 2)) = (49, 6000) /\
    (degrees_field (group g' 1), hundredths_field (group g' 2)) = (50, 0) /\
    reencode lat = (50, 0).
Proof.
  do 3 eexists. split; [reflexivity|]. split; [reflexivity|].
  split; [vm_compute; reflexivity|].
  split; [vm_compute; reflexivity|].
  split; [vm_compute; reflexivity|].
  split; vm_compute; reflexivity.
Qed.

End Coordinates.

(* ================================================================== *)
(** * The comment of a position report *)
(* ================================================================== *)

(** A match at the first character is the match [search] returns. *)
Lemma search_at_head (r : regex) (s : text) (g : caps) :
  m r (fun _ g' => Some g') s [] = Some g -> search r s = Some g.
Proof. intros H. destruct s; cbn [search]; rewrite H; reflexivity. Qed.

(** A starred set swallows a text of that set whole, when what follows
    accepts the end of the text. *)
Lemma star_set_all (p : char -> bool) (k : cont) :
  forall (s : text) (n : nat) (g : caps),
    Forall (fun c => p c = true) s -> (List.length s <= n)%nat ->
    k [] g <> None ->
    star_loop (m (Set_ p)) k n s g = k [] g.
Proof.
  induction s as [|c s IH]; intros n g F L K.
  - destruct n; reflexivity.
  - destruct n as [|n]; [cbn [List.length] in L; lia|].
    inversion F as [|? ? Pc Fs]; subst.
    cbn [star_loop].
    match goal with
    | |- context [m (Set_ p) ?K (c :: s) g] =>
        change (m (Set_ p) K (c :: s) g) with (if p c then K s g else None)
    end.
    cbv beta. rewrite Pc.
    replace (List.length s <? List.length (c :: s))%nat with true
      by (symmetry; apply Nat.ltb_lt; cbn [List.length]; lia).
    rewrite (IH n g Fs) by (cbn [List.length] in L; lia || exact K).
    destruct (k [] g); [reflexivity | congruence].
Qed.

(** Neither the report's first character nor a digit nor the point is a
    hemisphere letter. *)
Lemma not_hemisphere (c : char) :
  one_of "!" "=" c = true \/ isdecimal c = true \/ c = ord "." ->
  one_of "N" "S" c = false.
Proof.
  intros H. unfold one_of at 1. apply orb_false_iff.
  split; apply N.eqb_neq; intros ->;
    destruct H as [H|[H|H]]; vm_compute in H; discriminate.
Qed.

(** When the position starts the content and no line feed follows, the
    second search finds the same longitude field, and the comment is what
    follows it, trimmed. *)
Lemma comment_after_leading_position (content : text) (self : t) (g : caps) :
  m position_re (fun _ g' => Some g') content [] = Some g ->
  Forall (fun c => any c = true) (skipn 19 content) ->
  comment (fst (_parse_position content self)) = strip (skipn 19 content).
Proof.
  intros H NL.
  rewrite (parse_position_match content self g (search_at_head _ _ _ H)).
  cbn [comment].
  apply m_sound in H. destruct H as (w & rest & g' & -> & R & E).
  injection E as ->.
  apply position_run in R.
  destruct R as (sym & a1 & a2 & b1 & b2 & b3 & b4 & ns & c1 & c2 & c3 &
                 e1 & e2 & e3 & e4 & ew & -> & _ & SYM & D & NS & EW).
  cbn [app skipn] in *.
  repeat match goal with
         | H : Forall _ (_ :: _) |- _ => inversion H; subst; clear H
         end.
  assert (skip : forall c s, one_of "N" "S" c = false ->
                             search after_re (c :: s) = search after_re s).
  { intros c s F. cbn [search]. unfold after_re at 1. cbn [m]. rewrite F.
    reflexivity. }
  rewrite !skip by (apply not_hemisphere; auto).
  assert (found : search after_re
                    (ns :: ord "/" :: c1 :: c2 :: c3 :: e1 :: e2 :: ord "." ::
                     e3 :: e4 :: ew :: rest) = Some [(1%nat, rest)]).
  { cbn [search]. unfold after_re, digit, Lit.
    set (tail := Group 1 (Star (Set_ any))). cbn [m].
    repeat match goal with
           | H : ?t = true |- context [if ?t then _ else _] => rewrite H
           end.
    change (is_chr "/" (ord "/")) with true.
    change (is_chr "." (ord ".")) with true. cbv iota.
    repeat match goal with
           | H : ?t = true |- context [if ?t then _ else _] => rewrite H
           end.
    match goal with
    | |- context [m tail ?K ?s ?g0] =>
        change (m tail K s g0)
          with (star_loop (m (Set_ any))
                  (fun s' g' =>
                     K s' ((1%nat, firstn (List.length s - List.length s') s) :: g'))
                  (List.length s) s g0)
    end.
    rewrite star_set_all; [| exact NL | lia | discriminate].
    cbn [List.length]. rewrite Nat.sub_0_r, firstn_all. reflexivity. }
  rewrite found. reflexivity.
Qed.

(* ================================================================== *)
(** * Two lines, decoded *)
(* ================================================================== *)

(** C5. The first example of the spec, field by field. *)
Theorem spec_example_position (now : Z) :
  exists lat lon,
    new (str "N0CALL>APRS,WIDE1-1,WIDE2-1:!4903.50N/07201.75W-Test position") now =
      Ok (mk (str "N0CALL>APRS,WIDE1-1,WIDE2-1:!4903.50N/07201.75W-Test position")
             (str "N0CALL") (str "APRS") [str "WIDE1-1"; str "WIDE2-1"]
             (str "Position") (Some lat) (Some lon)
             (str "-Test position") now) /\
    lat = (49 + 3.5 / 60)%float /\
    lon = (- (72 + 1.75 / 60))%float /\
    PrimFloat.ltb (PrimFloat.abs (lat - 49058333 / 1000000)%float)
                  (1 / 1000000)%float = true /\
    PrimFloat.ltb (PrimFloat.abs (lon - (-72029167) / 1000000)%float)
                  (1 / 1000000)%float = true.
Proof.
  eexists. eexists. split; [vm_compute; reflexivity|].
  repeat split; vm_compute; reflexivity.
Qed.

(** C1, at a line where the code goes wrong.  The position pattern matches
    at the [=], after which only [rest] follows; the second search starts
    over, finds [N/12345.67E] first, and the comment is everything after
    that. *)
Theorem comment_from_second_search (now : Z) :
  let content := str "!N/12345.67E=4903.50N/07201.75Wrest" in
  exists p g,
    new (str "N0CALL>APRS:" ++ content) now = Ok p /\
    search position_re content = Some g /\
    content = str "!N/12345.67E" ++ str "=" ++
              group g 1 ++ group g 2 ++ group g 3 ++ str "/" ++
              group g 4 ++ group g 5 ++ group g 6 ++ str "rest" /\
    latitude p = Some (49 + 3.5 / 60)%float /\
    longitude p = Some (- (72 + 1.75 / 60))%float /\
    comment p = str "=4903.50N/07201.75Wrest" /\
    comment p <> strip (str "rest").
Proof.
  cbv zeta. do 2 eexists.
  split; [vm_compute; reflexivity|].
  split; [vm_compute; reflexivity|].
  split; [reflexivity|].
  split; [vm_compute; reflexivity|].
  split; [vm_compute; reflexivity|].
  split; [reflexivity | vm_compute; discriminate].
Qed.
